(** * Govigyan-CEP: the Gemini transport client and its React hook

    A shallow embedding of

      - [src/config/api.ts]        (the configuration object),
      - [services/geminiService]   (the axios client, [fetchData], [postData],
                                    [uploadFile] and the [geminiApi] bindings),
      - [hooks/useGeminiApi]       (the nine stateful operations of the hook),

    followed by the properties proved about them.

    Promises are modelled by their settlement: a computation either resolves
    with a value or rejects with a thrown JavaScript value.  The transport
    layer is a writer over the effects it performs (console lines, toasts and
    HTTP requests); the hook is a state monad over the React state it owns
    and the chronological list of everything that happened during the call. *)

From Stdlib Require Import String Ascii List ZArith Bool Lia DecimalString.
Import ListNotations.
Local Open Scope string_scope.
Local Open Scope Z_scope.
Local Open Scope list_scope.

(* ===================================================================== *)
(** ** JavaScript values                                                  *)
(* ===================================================================== *)

Module Js.

(** The browser's [File]: only the metadata the code reads. *)
Record File := mkFile
  { file_name : string;
    file_size : Z;
    file_type : string }.

(** An [Error] object.  [name] is "Error", "TypeError", "AxiosError", ...;
    [code] is the field axios sets on its errors (['ERR_NETWORK'],
    ['ECONNABORTED'], ...); [response_data_message] is
    [error.response?.data?.message], [None] when any link of the chain is
    missing. *)
Record Error := mkError
  { name : string;
    message : string;
    code : option string;
    response_data_message : option string }.

(** [new Error(msg)] *)
Definition new_Error (msg : string) : Error :=
  {| name := "Error"; message := msg; code := None;
     response_data_message := None |}.

#[warnings="-register-all"] Inductive Value :=
| VUndefined
| VNull
| VBool (b : bool)
| VNum (n : Z)
| VStr (s : string)
| VFile (f : File)
| VArr (xs : list Value)
| VObj (fields : list (string * Value))
| VFormData (entries : list (string * Value))
| VError (e : Error).

(** A plain object, as the list of its own enumerable properties in the
    order [Object.keys] lists them (integer-like keys first, ascending,
    then the other keys in the order they were added). *)
Definition Object := list (string * Value).

(** [v instanceof Error] *)
Definition instanceof_Error (v : Value) : bool :=
  match v with
  | VError _ => true
  | _ => false
  end.

(** JavaScript truthiness ([if (v)], [a || b]). *)
Definition truthy (v : Value) : bool :=
  match v with
  | VUndefined | VNull => false
  | VBool b => b
  | VNum n => negb (n =? 0)
  | VStr s => negb (s =? "")%string
  | _ => true
  end.

(** [a || b] on optional strings: the empty string and [undefined] are
    falsy. *)
Definition or_string (a : option string) (b : string) : string :=
  match a with
  | Some s => if (s =? "")%string then b else s
  | None => b
  end.

(** [obj[key]] on an object literal. *)
Fixpoint get (fields : Object) (key : string) : Value :=
  match fields with
  | [] => VUndefined
  | (k, v) :: rest => if (k =? key)%string then v else get rest key
  end.

(** [Object.keys(obj)] *)
Definition keys (fields : Object) : list string := map fst fields.

(** [s.startsWith(p)] *)
Fixpoint startsWith (p s : string) : bool :=
  match p, s with
  | EmptyString, _ => true
  | String a p', String b s' => Ascii.eqb a b && startsWith p' s'
  | String _ _, EmptyString => false
  end.

(** [s.includes(p)] *)
Fixpoint includes (s p : string) : bool :=
  startsWith p s ||
  match s with
  | EmptyString => false
  | String _ s' => includes s' p
  end.

(** What [v.code] evaluates to; reading a property of [null] or
    [undefined] throws a [TypeError], reported here as [inr]. *)
Definition TypeError_code : Error :=
  {| name := "TypeError";
     message := "Cannot read properties of undefined (reading 'code')";
     code := None;
     response_data_message := None |}.

Definition get_code (v : Value) : Value + Error :=
  match v with
  | VUndefined | VNull => inr TypeError_code
  | VError e =>
      inl (match code e with Some c => VStr c | None => VUndefined end)
  | VObj fields => inl (get fields "code")
  | _ => inl VUndefined
  end.

(** [v === 'lit'] for a string literal. *)
Definition strict_eq_string (v : Value) (lit : string) : bool :=
  match v with
  | VStr s => (s =? lit)%string
  | _ => false
  end.

(** [String(n)] for an integer below 10^21 in absolute value, which
    prints in plain decimal. *)
Definition Number_toString (n : Z) : string :=
  NilZero.string_of_int (Z.to_int n).

(** [String(v)]: how a value is turned into a string.  Arrays join their
    elements with commas, [null] and [undefined] elements giving the
    empty string; plain objects, files and forms print their class; an
    Error prints its name and message. *)
Fixpoint to_String (v : Value) : string :=
  match v with
  | VUndefined => "undefined"
  | VNull => "null"
  | VBool true => "true"
  | VBool false => "false"
  | VNum n => Number_toString n
  | VStr s => s
  | VFile _ => "[object File]"
  | VArr xs =>
      (fix join (l : list Value) : string :=
         match l with
         | [] => ""
         | x :: rest =>
             let item :=
               match x with
               | VUndefined | VNull => ""
               | _ => to_String x
               end in
             match rest with
             | [] => item
             | _ :: _ => (item ++ "," ++ join rest)%string
             end
         end) xs
  | VObj _ => "[object Object]"
  | VFormData _ => "[object FormData]"
  | VError e =>
      if (name e =? "")%string then message e
      else if (message e =? "")%string then name e
      else (name e ++ ": " ++ message e)%string
  end.

(** What [FormData.append(key, v)] stores for [v]: a [File] as it is, any
    other value as the string [String(v)]. *)
Definition form_value (v : Value) : Value :=
  match v with
  | VFile f => VFile f
  | _ => VStr (to_String v)
  end.

End Js.
Import Js.

(* ===================================================================== *)
(** ** [src/config/api.ts]                                                *)
(* ===================================================================== *)

Module config.

Section Env.
(** [import.meta.env.VITE_API_BASE_URL] *)
Variable VITE_API_BASE_URL : option string.

Definition GEMINI_API_URL : string :=
  or_string VITE_API_BASE_URL "https://govigyan-gemini.onrender.com".
End Env.

Definition API_TIMEOUT : Z := 120000.
Definition MAX_FILE_SIZE : Z := 10 * 1024 * 1024.

Module ENDPOINTS.
Definition ANALYZE_IMAGE := "/upload-flash".
Definition GET_ANALYSIS := "/results".
Definition EXTRACT_DATA := "/upload-flash".
Definition CREATE_DATABASE := "/create-database".
Definition INSERT_DATA := "/insert-data".
Definition CSV_DATA := "/results".
Definition UPDATE_CSV_DATA := "/update".
End ENDPOINTS.

End config.

(* ===================================================================== *)
(** ** [services/geminiService]: the transport client                     *)
(* ===================================================================== *)

Module Transport.

Inductive Method := GET | POST.

(** [AxiosRequestConfig], restricted to the fields this code sets. *)
Record RequestConfig := mkConfig
  { params : Value;
    headers : list (string * string);
    timeout : option Z }.

(** The empty config object [{}]. *)
Definition empty_config : RequestConfig :=
  {| params := VUndefined; headers := []; timeout := None |}.

(** A request as the client dispatches it: verb, path, body and the
    per-request config ([axios] reads an omitted config as [{}]). *)
Record Request := mkRequest
  { method : Method;
    url : string;
    data : Value;
    cfg : RequestConfig }.

Record Response := mkResponse
  { resp_data : Value;
    resp_status : Z }.

(** Everything observable the code does besides settling its promise. *)
Inductive Effect :=
| ConsoleLog (msg : string) (args : list Value)
| ConsoleError (msg : string) (args : list Value)
| ToastInfo (msg : string)
| ToastError (msg : string)
| Http (r : Request).

(** How a promise settles. *)
Inductive Settled (A : Type) :=
| Resolved (a : A)
| Rejected (v : Value).
Arguments Resolved {A} a.
Arguments Rejected {A} v.

(** An async transport computation: its settlement and the effects it
    performed, oldest first. *)
Definition T (A : Type) : Type := (Settled A * list Effect)%type.

Definition ret {A} (a : A) : T A := (Resolved a, []).

Definition throw {A} (v : Value) : T A := (Rejected v, []).

Definition bind {A B} (m : T A) (k : A -> T B) : T B :=
  match m with
  | (Resolved a, log) => let (r, log') := k a in (r, log ++ log')
  | (Rejected v, log) => (Rejected v, log)
  end.

(** [try { body } catch (e) { handler e }] *)
Definition try_catch {A} (body : T A) (handler : Value -> T A) : T A :=
  match body with
  | (Resolved a, log) => (Resolved a, log)
  | (Rejected v, log) => let (r, log') := handler v in (r, log ++ log')
  end.

Definition tell (e : Effect) : T unit := (Resolved tt, [e]).

Declare Scope transport_scope.
Delimit Scope transport_scope with T.
Notation "x <- m ;; k" := (bind m (fun x => k))
  (at level 61, m at next level, right associativity) : transport_scope.
Notation "m ;; k" := (bind m (fun _ => k))
  (at level 61, right associativity) : transport_scope.
Local Open Scope transport_scope.

Definition console_log (msg : string) (args : list Value) : T unit :=
  tell (ConsoleLog msg args).
Definition console_error (msg : string) (args : list Value) : T unit :=
  tell (ConsoleError msg args).
Definition toast_info (msg : string) : T unit := tell (ToastInfo msg).
Definition toast_error (msg : string) : T unit := tell (ToastError msg).

(** The requests among a list of effects, in order. *)
Fixpoint requests (log : list Effect) : list Request :=
  match log with
  | [] => []
  | Http r :: rest => r :: requests rest
  | _ :: rest => requests rest
  end.

(** [FormData.append]: the entry goes last, a value that is not a file is
    stored as a string. *)
Definition append (fd : list (string * Value)) (k : string) (v : Value)
  : list (string * Value) :=
  fd ++ [(k, form_value v)].

(** The shape of the exported [geminiApi] object: what the hook imports. *)
Record Api := mkApi
  { analyzeImage : File -> option Object -> T Value;
    getAnalysisResults : string -> T Value;
    extractDataFromImage : File -> T Value;
    processFiles : list File -> T Value;
    createDatabase : T Value;
    insertDataIntoPostgres : Value -> string -> T Value;
    getCsvData : string -> T Value;
    updateCsvData : string -> Value -> T Value;
    getAllCsvData : T Value }.

Section Client.
Variable VITE_API_BASE_URL : option string.

(** The remote service together with the network: how the request the
    client dispatches settles, with a response or with an axios
    error.  No operation dispatches the same request twice, so a
    function of the request loses nothing within one call. *)
Variable remote : Request -> Response + Error.

Let GEMINI_API_URL := config.GEMINI_API_URL VITE_API_BASE_URL.

(** *** [apiClient = axios.create({...})] *)
Definition apiClient_baseURL : string := GEMINI_API_URL.
Definition apiClient_headers : list (string * string) :=
  [("Content-Type", "application/json")].
Definition apiClient_timeout : Z := config.API_TIMEOUT.

(** The timeout a request runs under: its own, else the client's. *)
Definition effective_timeout (r : Request) : Z :=
  match timeout (cfg r) with
  | Some t => t
  | None => apiClient_timeout
  end.

(** The response interceptor's error handler. *)
Definition response_rejected {A} (error : Error) : T A :=
  console_error "API Error Details:" [VError error] ;;
  (if match code error with
      | Some c => (c =? "ERR_NETWORK")%string
      | None => false
      end
   then
     let message := "Network connection failed. Please check if the API server is running and accessible." in
     toast_error message
   else
     let message :=
       or_string (response_data_message error)
         (or_string (Some (message error)) "An error occurred") in
     toast_error ("API Error: " ++ message)%string) ;;
  throw (VError error).

(** The request interceptor. *)
Definition request_fulfilled (r : Request) : T Request :=
  console_log "Making API request to:" [VStr (apiClient_baseURL ++ url r)%string] ;;
  ret r.

Definition apiClient_request (r : Request) : T Response :=
  r <- request_fulfilled r ;;
  tell (Http r) ;;
  match remote r with
  | inl response => ret response
  | inr error => response_rejected error
  end.

Definition or_empty (c : option RequestConfig) : RequestConfig :=
  match c with
  | Some c => c
  | None => empty_config
  end.

(** [apiClient.get(url, config?)] *)
Definition apiClient_get (u : string) (c : option RequestConfig)
  : T Response :=
  apiClient_request
    {| method := GET; url := u; data := VUndefined; cfg := or_empty c |}.

(** [apiClient.post(url, data, config?)] *)
Definition apiClient_post (u : string) (d : Value)
    (c : option RequestConfig) : T Response :=
  apiClient_request
    {| method := POST; url := u; data := d; cfg := or_empty c |}.


(** *** [fetchData]: the general GET *)
Definition fetchData (endpoint : string) (params_ : Value) : T Value :=
  try_catch
    (let config := empty_config in
     let config :=
       if truthy params_
       then {| params := params_;
               headers := headers config;
               timeout := timeout config |}
       else config in
     response <- apiClient_get endpoint (Some config) ;;
     ret (resp_data response))
    (fun error =>
       console_error
         ("Error fetching data from " ++ endpoint ++ ":")%string [error] ;;
       throw error).

(** *** [postData]: the general POST *)
Definition postData (endpoint : string) (data_ : Value) : T Value :=
  try_catch
    (response <- apiClient_post endpoint data_ None ;;
     ret (resp_data response))
    (fun error =>
       console_error
         ("Error posting data to " ++ endpoint ++ ":")%string [error] ;;
       throw error).

(** *** [uploadFile]: multipart upload behind a health probe.
    [additionalData] is [None] when the argument is omitted and an
    object literal otherwise (an object is always truthy). *)
Definition uploadFile (endpoint : string) (file : File)
    (additionalData : option Object) : T Value :=
  try_catch
    (console_log "Uploading file:"
       [VStr (file_name file); VStr "to endpoint:"; VStr endpoint] ;;
     let formData := [] in
     let formData := append formData "file" (VFile file) in
     let formData :=
       match additionalData with
       | Some obj =>
           fold_left (fun fd key => append fd key (get obj key))
             (keys obj) formData
       | None => formData
       end in
     try_catch
       (apiClient_get "/health" None ;; ret tt)
       (fun healthError =>
          console_error "API health check failed:" [healthError] ;;
          throw (VError (new_Error
            "API server is not reachable. Please check the server status."))) ;;
     response <-
       apiClient_post endpoint (VFormData formData)
         (Some {| params := VUndefined;
                  headers := [("Content-Type", "multipart/form-data")];
                  timeout := Some config.API_TIMEOUT |}) ;;
     console_log "Upload response:" [resp_data response] ;;
     ret (resp_data response))
    (fun error =>
       console_error
         ("Error uploading file to " ++ endpoint ++ ":")%string [error] ;;
       match get_code error with
       | inr type_error => throw (VError type_error)
       | inl c =>
           if strict_eq_string c "ERR_NETWORK"
           then throw (VError (new_Error
                  ("Network connection failed. Please check if the API server is running at "
                     ++ GEMINI_API_URL)%string))
           else throw error
       end).

(** *** The [geminiApi] bindings *)
Definition geminiApi_analyzeImage (file : File) (options : option Object)
  : T Value :=
  uploadFile config.ENDPOINTS.ANALYZE_IMAGE file options.

Definition geminiApi_getAnalysisResults (analysisId : string) : T Value :=
  fetchData (config.ENDPOINTS.GET_ANALYSIS ++ "/" ++ analysisId)%string
    VUndefined.

Definition geminiApi_extractDataFromImage (file : File) : T Value :=
  uploadFile config.ENDPOINTS.EXTRACT_DATA file None.

Definition geminiApi_processFiles (files : list File) : T Value :=
  try_catch
    (let formData := [] in
     let formData :=
       fold_left (fun fd file => append fd "file" (VFile file))
         files formData in
     response <-
       apiClient_post config.ENDPOINTS.EXTRACT_DATA (VFormData formData)
         (Some {| params := VUndefined;
                  headers := [("Content-Type", "multipart/form-data")];
                  timeout := None |}) ;;
     ret (resp_data response))
    (fun error =>
       console_error "Error processing multiple files:" [error] ;;
       throw error).

Definition geminiApi_createDatabase : T Value :=
  try_catch
    (response <- apiClient_post "/create-database" (VObj []) None ;;
     ret (resp_data response))
    (fun error =>
       console_error "Error creating database:" [error] ;;
       throw error).

Definition geminiApi_insertDataIntoPostgres (data_ : Value)
    (tableName : string) : T Value :=
  try_catch
    (response <-
       apiClient_post "/insert-data"
         (VObj [("data", data_); ("tableName", VStr tableName)]) None ;;
     ret (resp_data response))
    (fun error =>
       console_error "Error inserting data into PostgreSQL:" [error] ;;
       throw error).

Definition geminiApi_getCsvData (id : string) : T Value :=
  try_catch
    (response <-
       apiClient_get (config.ENDPOINTS.CSV_DATA ++ "/" ++ id)%string None ;;
     ret (resp_data response))
    (fun error =>
       console_error "Error fetching CSV data:" [error] ;;
       throw error).

Definition geminiApi_updateCsvData (id : string) (data_ : Value)
  : T Value :=
  try_catch
    (response <-
       apiClient_post (config.ENDPOINTS.UPDATE_CSV_DATA ++ "/" ++ id)%string
         (VObj [("data", data_)]) None ;;
     ret (resp_data response))
    (fun error =>
       console_error "Error updating CSV data:" [error] ;;
       throw error).

Definition geminiApi_getAllCsvData : T Value :=
  try_catch
    (response <- apiClient_get config.ENDPOINTS.CSV_DATA None ;;
     ret (resp_data response))
    (fun error =>
       console_error "Error fetching all CSV data:" [error] ;;
       throw error).

Definition geminiApi : Api :=
  {| analyzeImage := geminiApi_analyzeImage;
     getAnalysisResults := geminiApi_getAnalysisResults;
     extractDataFromImage := geminiApi_extractDataFromImage;
     processFiles := geminiApi_processFiles;
     createDatabase := geminiApi_createDatabase;
     insertDataIntoPostgres := geminiApi_insertDataIntoPostgres;
     getCsvData := geminiApi_getCsvData;
     updateCsvData := geminiApi_updateCsvData;
     getAllCsvData := geminiApi_getAllCsvData |}.

End Client.
End Transport.

(* ===================================================================== *)
(** ** [hooks/useGeminiApi]: the stateful operations                      *)
(* ===================================================================== *)

Module Hook.
Import Transport.

(** What happens during a call, oldest first: the effects of the
    transport layer and of the hook itself, and the hook's state
    writes. *)
Inductive Event :=
| Eff (e : Effect)
| SetIsLoading (b : bool)
| SetError (e : option Error).

(** The two [useState] cells, and the history of the component. *)
Record State := mkState
  { isLoading : bool;
    error : option Error;
    events : list Event }.

(** [useState(false)], [useState<Error | null>(null)] *)
Definition initial : State :=
  {| isLoading := false; error := None; events := [] |}.

(** An async operation of the hook. *)
Definition H (A : Type) : Type := State -> Settled A * State.

Definition ret {A} (a : A) : H A := fun s => (Resolved a, s).

Definition throw {A} (v : Value) : H A := fun s => (Rejected v, s).

Definition bind {A B} (m : H A) (k : A -> H B) : H B :=
  fun s =>
    match m s with
    | (Resolved a, s') => k a s'
    | (Rejected v, s') => (Rejected v, s')
    end.

(** [try { body } catch (e) { handler e }] *)
Definition try_catch {A} (body : H A) (handler : Value -> H A) : H A :=
  fun s =>
    match body s with
    | (Resolved a, s') => (Resolved a, s')
    | (Rejected v, s') => handler v s'
    end.

(** Awaiting a transport computation: its effects join the history. *)
Definition lift {A} (m : T A) : H A :=
  fun s =>
    (fst m,
     {| isLoading := isLoading s;
        error := error s;
        events := events s ++ map Eff (snd m) |}).

Definition setIsLoading (b : bool) : H unit :=
  fun s =>
    (Resolved tt,
     {| isLoading := b;
        error := error s;
        events := events s ++ [SetIsLoading b] |}).

Definition setError (e : option Error) : H unit :=
  fun s =>
    (Resolved tt,
     {| isLoading := isLoading s;
        error := e;
        events := events s ++ [SetError e] |}).

Declare Scope hook_scope.
Delimit Scope hook_scope with H.
Notation "x <- m ;; k" := (bind m (fun x => k))
  (at level 61, m at next level, right associativity) : hook_scope.
Notation "m ;; k" := (bind m (fun _ => k))
  (at level 61, right associativity) : hook_scope.
Local Open Scope hook_scope.

Definition console_log (msg : string) (args : list Value) : H unit :=
  lift (Transport.console_log msg args).
Definition console_error (msg : string) (args : list Value) : H unit :=
  lift (Transport.console_error msg args).
Definition toast_info (msg : string) : H unit :=
  lift (Transport.toast_info msg).

(** The arguments of one call to the hook. *)
Inductive Op :=
| AnalyzeImage (file : File) (options : option Object)
| ExtractDataFromImage (file : File)
| GetAnalysisResults (analysisId : string)
| ProcessFiles (files : list File)
| CreateDatabase
| InsertDataIntoPostgres (data_ : Value) (tableName : string)
| GetCsvData (id : string)
| UpdateCsvData (id : string) (data_ : Value)
| GetAllCsvData.

Section useGeminiApi.
Variable VITE_API_BASE_URL : option string.

(** The imported [geminiApi]. *)
Variable api : Api.

Let GEMINI_API_URL := config.GEMINI_API_URL VITE_API_BASE_URL.

(** The local [errorMessage] of [analyzeImage]'s catch block, at the
    point where [error] is built. *)
Definition analyzeImage_errorMessage (err : Value) : string :=
  let errorMessage := "Unknown error occurred" in
  match err with
  | VError e =>
      let errorMessage := message e in
      if includes errorMessage "timeout" then
        "The request took too long to process. Please try with a smaller file or try again later."
      else if includes errorMessage "Network" then
        ("Cannot connect to the API server at " ++ GEMINI_API_URL
           ++ ". Please check if the server is running.")%string
      else if includes errorMessage "404" then
        "API endpoint not found. Please check the API configuration."
      else if includes errorMessage "500" then
        "Server error occurred. Please try again later."
      else errorMessage
  | _ => errorMessage
  end.

(** [err instanceof Error ? err : new Error(msg)] *)
Definition error_or_new (err : Value) (msg : string) : Error :=
  match err with
  | VError e => e
  | _ => new_Error msg
  end.

Definition analyzeImage (file : File) (options : option Object)
  : H Value :=
  setIsLoading true ;;
  setError None ;;
  try_catch
    (console_log "Starting file analysis with Gemini API..." [] ;;
     console_log "API URL:" [VStr GEMINI_API_URL] ;;
     console_log "File details:"
       [VObj [("name", VStr (file_name file));
              ("size", VNum (file_size file));
              ("type", VStr (file_type file))]] ;;
     toast_info
       "Processing with Gemini AI, this may take up to 2 minutes for large files..." ;;
     result <- lift (Transport.analyzeImage api file options) ;;
     console_log "Analysis completed successfully:" [result] ;;
     setIsLoading false ;;
     ret result)
    (fun err =>
       console_error "Analysis failed:" [err] ;;
       let errorMessage := analyzeImage_errorMessage err in
       let error := error_or_new err errorMessage in
       setError (Some error) ;;
       setIsLoading false ;;
       throw (VError error)).

Definition extractDataFromImage (file : File) : H Value :=
  setIsLoading true ;;
  setError None ;;
  try_catch
    (result <- lift (Transport.extractDataFromImage api file) ;;
     setIsLoading false ;;
     ret result)
    (fun err =>
       setError (Some (error_or_new err "Unknown error occurred")) ;;
       setIsLoading false ;;
       throw err).

Definition getAnalysisResults (analysisId : string) : H Value :=
  setIsLoading true ;;
  setError None ;;
  try_catch
    (result <- lift (Transport.getAnalysisResults api analysisId) ;;
     setIsLoading false ;;
     ret result)
    (fun err =>
       setError (Some (error_or_new err "Unknown error occurred")) ;;
       setIsLoading false ;;
       throw err).

Definition processFiles (files : list File) : H Value :=
  setIsLoading true ;;
  setError None ;;
  try_catch
    (result <- lift (Transport.processFiles api files) ;;
     setIsLoading false ;;
     ret result)
    (fun err =>
       setError (Some (error_or_new err "Unknown error occurred")) ;;
       setIsLoading false ;;
       throw err).

Definition createDatabase : H Value :=
  setIsLoading true ;;
  setError None ;;
  try_catch
    (result <- lift (Transport.createDatabase api) ;;
     setIsLoading false ;;
     ret result)
    (fun err =>
       setError (Some (error_or_new err "Unknown error occurred")) ;;
       setIsLoading false ;;
       throw err).

Definition insertDataIntoPostgres (data_ : Value) (tableName : string)
  : H Value :=
  setIsLoading true ;;
  setError None ;;
  try_catch
    (result <-
       lift (Transport.insertDataIntoPostgres api data_ tableName) ;;
     setIsLoading false ;;
     ret result)
    (fun err =>
       setError (Some (error_or_new err "Unknown error occurred")) ;;
       setIsLoading false ;;
       throw err).

Definition getCsvData (id : string) : H Value :=
  setIsLoading true ;;
  setError None ;;
  try_catch
    (result <- lift (Transport.getCsvData api id) ;;
     setIsLoading false ;;
     ret result)
    (fun err =>
       setError (Some (error_or_new err "Unknown error occurred")) ;;
       setIsLoading false ;;
       throw err).

Definition updateCsvData (id : string) (data_ : Value) : H Value :=
  setIsLoading true ;;
  setError None ;;
  try_catch
    (result <- lift (Transport.updateCsvData api id data_) ;;
     setIsLoading false ;;
     ret result)
    (fun err =>
       setError (Some (error_or_new err "Unknown error occurred")) ;;
       setIsLoading false ;;
       throw err).

Definition getAllCsvData : H Value :=
  setIsLoading true ;;
  setError None ;;
  try_catch
    (result <- lift (Transport.getAllCsvData api) ;;
     setIsLoading false ;;
     ret result)
    (fun err =>
       setError (Some (error_or_new err "Unknown error occurred")) ;;
       setIsLoading false ;;
       throw err).

(** One call to the object [useGeminiApi] returns. *)
Definition invoke (op : Op) : H Value :=
  match op with
  | AnalyzeImage file options => analyzeImage file options
  | ExtractDataFromImage file => extractDataFromImage file
  | GetAnalysisResults analysisId => getAnalysisResults analysisId
  | ProcessFiles files => processFiles files
  | CreateDatabase => createDatabase
  | InsertDataIntoPostgres d t => insertDataIntoPostgres d t
  | GetCsvData id => getCsvData id
  | UpdateCsvData id d => updateCsvData id d
  | GetAllCsvData => getAllCsvData
  end.

(** The [geminiApi] call that operation awaits. *)
Definition binding (op : Op) : T Value :=
  match op with
  | AnalyzeImage file options => Transport.analyzeImage api file options
  | ExtractDataFromImage file => Transport.extractDataFromImage api file
  | GetAnalysisResults analysisId =>
      Transport.getAnalysisResults api analysisId
  | ProcessFiles files => Transport.processFiles api files
  | CreateDatabase => Transport.createDatabase api
  | InsertDataIntoPostgres d t => Transport.insertDataIntoPostgres api d t
  | GetCsvData id => Transport.getCsvData api id
  | UpdateCsvData id d => Transport.updateCsvData api id d
  | GetAllCsvData => Transport.getAllCsvData api
  end.

End useGeminiApi.

(** The loading flag after a run of events, starting from [b]. *)
Fixpoint loading_after (b : bool) (evs : list Event) : bool :=
  match evs with
  | [] => b
  | SetIsLoading b' :: rest => loading_after b' rest
  | _ :: rest => loading_after b rest
  end.

Definition is_analyzeImage (op : Op) : bool :=
  match op with
  | AnalyzeImage _ _ => true
  | _ => false
  end.

End Hook.

(* ===================================================================== *)
(** ** Concrete remotes and arguments used in the examples                *)
(* ===================================================================== *)

Module Scenario.
Import Transport.

Definition photo : File :=
  {| file_name := "sheet.png"; file_size := 2048; file_type := "image/png" |}.

Definition ok_body : Value := VObj [("status", VStr "ok")].

(** Every request is answered 200 with the same body. *)
Definition remote_up (r : Request) : Response + Error :=
  inl {| resp_data := ok_body; resp_status := 200 |}.

(** No request reaches the server. *)
Definition network_error : Error :=
  {| name := "AxiosError";
     message := "Network Error";
     code := Some "ERR_NETWORK";
     response_data_message := None |}.

Definition remote_down (r : Request) : Response + Error :=
  inr network_error.

(** The probe is answered, the upload runs into the client timeout. *)
Definition timeout_error : Error :=
  {| name := "AxiosError";
     message := "timeout of 120000ms exceeded";
     code := Some "ECONNABORTED";
     response_data_message := None |}.

Definition remote_slow (r : Request) : Response + Error :=
  match method r with
  | GET => inl {| resp_data := ok_body; resp_status := 200 |}
  | POST => inr timeout_error
  end.

(** A [geminiApi] whose every binding rejects with a plain string. *)
Definition api_throwing_string : Api :=
  let failed : T Value := (Rejected (VStr "boom"), []) in
  {| analyzeImage := fun _ _ => failed;
     getAnalysisResults := fun _ => failed;
     extractDataFromImage := fun _ => failed;
     processFiles := fun _ => failed;
     createDatabase := failed;
     insertDataIntoPostgres := fun _ _ => failed;
     getCsvData := fun _ => failed;
     updateCsvData := fun _ _ => failed;
     getAllCsvData := failed |}.

End Scenario.

(* ===================================================================== *)
(** ** Derived notions used in the statements                             *)
(* ===================================================================== *)

Module Spec.
Import Transport Hook.

(** The events a call added to the history of [s]. *)
Definition emitted {A} (m : H A) (s : State) : list Event :=
  skipn (length (events s)) (events (snd (m s))).

(** The loading flag after each event of a run starting from [b]. *)
Fixpoint loading_flags (b : bool) (evs : list Event) : list bool :=
  match evs with
  | [] => []
  | ev :: rest =>
      let b' := loading_after b [ev] in
      b' :: loading_flags b' rest
  end.

(** Events that leave the loading flag as it is. *)
Definition keeps_loading (ev : Event) : bool :=
  match ev with
  | SetIsLoading _ => false
  | _ => true
  end.

(** The probe [uploadFile] sends first. *)
Definition health_probe : Request :=
  {| method := GET; url := "/health"; data := VUndefined;
     cfg := empty_config |}.

(** The request [fetchData] hands to the client. *)
Definition fetch_request (endpoint : string) (params_ : Value) : Request :=
  {| method := GET; url := endpoint; data := VUndefined;
     cfg := if truthy params_
            then {| params := params_; headers := []; timeout := None |}
            else empty_config |}.

(** The request [postData] hands to the client. *)
Definition post_request (endpoint : string) (data_ : Value) : Request :=
  {| method := POST; url := endpoint; data := data_; cfg := empty_config |}.

(** How the client settles a request: the response interceptor hands
    the response or the error on as it got it. *)
Definition settle (remote : Request -> Response + Error) (r : Request)
  : Settled Value :=
  match remote r with
  | inl response => Resolved (resp_data response)
  | inr e => Rejected (VError e)
  end.

(** [GET /results/{id}] with an empty config. *)
Definition results_request (id : string) : Request :=
  {| method := GET; url := ("/results/" ++ id)%string; data := VUndefined;
     cfg := empty_config |}.

(** The multipart body [uploadFile] builds. *)
Definition upload_form (file : File) (additionalData : option Object)
  : list (string * Value) :=
  match additionalData with
  | Some obj =>
      fold_left (fun fd key => append fd key (get obj key)) (keys obj)
        [("file", VFile file)]
  | None => [("file", VFile file)]
  end.

(** The multipart POST [uploadFile] sends after the probe. *)
Definition upload_request (endpoint : string) (file : File)
    (additionalData : option Object) : Request :=
  {| method := POST; url := endpoint;
     data := VFormData (upload_form file additionalData);
     cfg := {| params := VUndefined;
               headers := [("Content-Type", "multipart/form-data")];
               timeout := Some config.API_TIMEOUT |} |}.

(** The single request of [processFiles]. *)
Definition processFiles_request (files : list File) : Request :=
  {| method := POST; url := "/upload-flash";
     data := VFormData (map (fun f => ("file", VFile f)) files);
     cfg := {| params := VUndefined;
               headers := [("Content-Type", "multipart/form-data")];
               timeout := None |} |}.

(** [e.code === 'ERR_NETWORK'] on an Error. *)
Definition is_ERR_NETWORK (e : Error) : bool :=
  match code e with
  | Some c => (c =? "ERR_NETWORK")%string
  | None => false
  end.

Definition not_reachable : Error :=
  new_Error "API server is not reachable. Please check the server status.".

Definition is_post (r : Request) : bool :=
  match method r with
  | POST => true
  | GET => false
  end.

(** The statement "every multipart POST of [uploadFile] runs under a
    timeout longer than the client's default". *)
Definition upload_timeout_extended (env : option string)
    (remote : Request -> Response + Error) (endpoint : string)
    (file : File) (additionalData : option Object) : Prop :=
  forall r,
    In r (requests (snd (uploadFile env remote endpoint file additionalData))) ->
    method r = POST ->
    effective_timeout r > apiClient_timeout.

(** The shared body of the eight operations other than [analyzeImage],
    over the binding they await. *)
Definition tracked (b : T Value) : H Value :=
  (setIsLoading true ;;
   setError None ;;
   Hook.try_catch
     (result <- lift b ;;
      setIsLoading false ;;
      Hook.ret result)
     (fun err =>
        setError (Some (error_or_new err "Unknown error occurred")) ;;
        setIsLoading false ;;
        Hook.throw err))%H.

(** What [analyzeImage] writes to the console and the toaster before it
    awaits the binding. *)
Definition analyzeImage_prologue (env : option string) (file : File)
  : list Effect :=
  [ConsoleLog "Starting file analysis with Gemini API..." [];
   ConsoleLog "API URL:" [VStr (config.GEMINI_API_URL env)];
   ConsoleLog "File details:"
     [VObj [("name", VStr (file_name file));
            ("size", VNum (file_size file));
            ("type", VStr (file_type file))]];
   ToastInfo
     "Processing with Gemini AI, this may take up to 2 minutes for large files..."].

End Spec.

(* ===================================================================== *)
(** ** What a caller and a user can observe of a call                     *)
(* ===================================================================== *)

Module Observe.
Import Transport Hook Spec.

(** The error toasts among a list of effects, in order. *)
Fixpoint toasts (log : list Effect) : list string :=
  match log with
  | [] => []
  | ToastError msg :: rest => msg :: toasts rest
  | _ :: rest => toasts rest
  end.

(** The effects among the events of the hook, in order. *)
Fixpoint effects_of (evs : list Event) : list Effect :=
  match evs with
  | [] => []
  | Eff e :: rest => e :: effects_of rest
  | _ :: rest => effects_of rest
  end.

Definition nonempty (s : string) : bool := negb (s =? "")%string.

(** The text of the toast for a failed request, case by case. *)
Definition toast_text (e : Error) : string :=
  if is_ERR_NETWORK e then
    "Network connection failed. Please check if the API server is running and accessible."
  else
    match response_data_message e with
    | Some m =>
        if nonempty m then ("API Error: " ++ m)%string
        else if nonempty (message e) then ("API Error: " ++ message e)%string
        else "API Error: An error occurred"
    | None =>
        if nonempty (message e) then ("API Error: " ++ message e)%string
        else "API Error: An error occurred"
    end.

(** The line the request interceptor writes for a request. *)
Definition request_line (env : option string) (r : Request) : Effect :=
  ConsoleLog "Making API request to:"
    [VStr (config.GEMINI_API_URL env ++ url r)%string].

(** Every request in the log comes right after the line of the request
    interceptor for that request. *)
Fixpoint every_request_announced (env : option string) (log : list Effect)
  : Prop :=
  match log with
  | [] => True
  | Http _ :: _ => False
  | ConsoleLog m args :: rest =>
      match rest with
      | Http r :: rest' =>
          ConsoleLog m args = request_line env r /\
          every_request_announced env rest'
      | _ => every_request_announced env rest
      end
  | _ :: rest => every_request_announced env rest
  end.

(** The message of the Error [uploadFile] throws for ['ERR_NETWORK']. *)
Definition network_failed_message (env : option string) : string :=
  ("Network connection failed. Please check if the API server is running at "
     ++ config.GEMINI_API_URL env)%string.

(** The two operations that go through [uploadFile]. *)
Definition is_upload (op : Op) : bool :=
  match op with
  | AnalyzeImage _ _ | ExtractDataFromImage _ => true
  | _ => false
  end.

(** The one request of each binding that does not go through
    [uploadFile]. *)
Definition direct_request (op : Op) : option Request :=
  match op with
  | AnalyzeImage _ _ | ExtractDataFromImage _ => None
  | GetAnalysisResults analysisId => Some (results_request analysisId)
  | ProcessFiles files => Some (processFiles_request files)
  | CreateDatabase => Some (post_request "/create-database" (VObj []))
  | InsertDataIntoPostgres d t =>
      Some (post_request "/insert-data"
              (VObj [("data", d); ("tableName", VStr t)]))
  | GetCsvData id => Some (results_request id)
  | UpdateCsvData id d =>
      Some (post_request ("/update/" ++ id)%string (VObj [("data", d)]))
  | GetAllCsvData =>
      Some {| method := GET; url := "/results"; data := VUndefined;
              cfg := empty_config |}
  end.

(** The line each of those bindings writes with [console.error] when its
    request fails. *)
Definition failure_line (op : Op) : string :=
  match op with
  | GetAnalysisResults analysisId =>
      ("Error fetching data from /results/" ++ analysisId ++ ":")%string
  | ProcessFiles _ => "Error processing multiple files:"
  | CreateDatabase => "Error creating database:"
  | InsertDataIntoPostgres _ _ => "Error inserting data into PostgreSQL:"
  | GetCsvData _ => "Error fetching CSV data:"
  | UpdateCsvData _ _ => "Error updating CSV data:"
  | GetAllCsvData => "Error fetching all CSV data:"
  | AnalyzeImage _ _ | ExtractDataFromImage _ =>
      "Error uploading file to /upload-flash:"
  end.

(** The Error an operation of the hook puts in its state for a thrown
    value. *)
Definition stored (err : Value) : Error :=
  match err with
  | VError e => e
  | _ => new_Error "Unknown error occurred"
  end.

(** What the caller of an operation of the hook catches when the binding
    threw [err]. *)
Definition thrown (op : Op) (err : Value) : Value :=
  match op with
  | AnalyzeImage _ _ => VError (stored err)
  | _ => err
  end.

(** The effects of the hook itself before it awaits the binding. *)
Definition prologue (env : option string) (op : Op) : list Effect :=
  match op with
  | AnalyzeImage file _ => analyzeImage_prologue env file
  | _ => []
  end.

(** The events of the hook after the binding resolved with [v]. *)
Definition on_resolved (op : Op) (v : Value) : list Event :=
  match op with
  | AnalyzeImage _ _ =>
      [Eff (ConsoleLog "Analysis completed successfully:" [v]);
       SetIsLoading false]
  | _ => [SetIsLoading false]
  end.

(** The events of the hook after the binding rejected with [err]. *)
Definition on_rejected (op : Op) (err : Value) : list Event :=
  match op with
  | AnalyzeImage _ _ =>
      [Eff (ConsoleError "Analysis failed:" [err]);
       SetError (Some (stored err)); SetIsLoading false]
  | _ => [SetError (Some (stored err)); SetIsLoading false]
  end.

(** The probe and the ping are answered, every POST fails at the
    network. *)
Definition remote_post_unreachable (r : Request) : Response + Error :=
  match method r with
  | GET => inl {| resp_data := Scenario.ok_body; resp_status := 200 |}
  | POST => inr Scenario.network_error
  end.

(** A scan of twenty megabytes. *)
Definition big_scan : File :=
  {| file_name := "ledger.tiff"; file_size := 20 * 1024 * 1024;
     file_type := "image/tiff" |}.

(** Awaiting a binding, as a statement of its own: the binding settles
    and its effects join the history. *)
Definition await {A} (m : T A) : H unit :=
  fun s => (Resolved tt, snd (lift m s)).

(** The state a statement leaves. *)
Definition after {A} (m : H A) (s : State) : State := snd (m s).

(** The state after each statement of a list run in sequence from [s]. *)
Fixpoint states_through (statements : list (H unit)) (s : State)
  : list State :=
  match statements with
  | [] => []
  | m :: rest => after m s :: states_through rest (after m s)
  end.

(** The statements one call of an operation executes, in order: the two
    writes, what precedes the [await], the [await], and then the rest of
    the [try] block or the [catch] block, as the binding settled. *)
Definition statements (env : option string) (api : Api) (op : Op)
  : list (H unit) :=
  let b := binding api op in
  match op with
  | AnalyzeImage file _ =>
      [setIsLoading true;
       setError None;
       console_log "Starting file analysis with Gemini API..." [];
       console_log "API URL:" [VStr (config.GEMINI_API_URL env)];
       console_log "File details:"
         [VObj [("name", VStr (file_name file));
                ("size", VNum (file_size file));
                ("type", VStr (file_type file))]];
       toast_info
         "Processing with Gemini AI, this may take up to 2 minutes for large files...";
       await b]
      ++ match fst b with
         | Resolved result =>
             [console_log "Analysis completed successfully:" [result];
              setIsLoading false]
         | Rejected err =>
             [console_error "Analysis failed:" [err];
              setError (Some (error_or_new err
                                (analyzeImage_errorMessage env err)));
              setIsLoading false]
         end
  | _ =>
      [setIsLoading true; setError None; await b]
      ++ match fst b with
         | Resolved _ => [setIsLoading false]
         | Rejected err =>
             [setError (Some (error_or_new err "Unknown error occurred"));
              setIsLoading false]
         end
  end.

(** The flag in state [st] is the one the events added since [s] give. *)
Definition flag_follows_events (s st : State) : Prop :=
  isLoading st =
  loading_after (isLoading s) (skipn (length (events s)) (events st)).

End Observe.
Import Transport Hook Spec Observe.

(* ===================================================================== *)
(** ** How the hook's operations run                                      *)
(* ===================================================================== *)

Lemma invoke_tracked env api op :
  is_analyzeImage op = false ->
  invoke env api op = tracked (binding api op).
Proof. destruct op; simpl; intros E; try discriminate; reflexivity. Qed.

Lemma tracked_run (b : T Value) (s : State) :
  tracked b s =
  match fst b with
  | Resolved v =>
      (Resolved v,
       {| isLoading := false;
          error := None;
          events := events s ++
            [SetIsLoading true; SetError None] ++ map Eff (snd b) ++
            [SetIsLoading false] |})
  | Rejected err =>
      let e := error_or_new err "Unknown error occurred" in
      (Rejected err,
       {| isLoading := false;
          error := Some e;
          events := events s ++
            [SetIsLoading true; SetError None] ++ map Eff (snd b) ++
            [SetError (Some e); SetIsLoading false] |})
  end.
Proof.
  destruct b as [[v | err] log]; cbn;
    repeat rewrite <- app_assoc; reflexivity.
Qed.

Lemma analyzeImage_run env api file options (s : State) :
  analyzeImage env api file options s =
  let b := Transport.analyzeImage api file options in
  let pre := map Eff (analyzeImage_prologue env file ++ snd b) in
  match fst b with
  | Resolved v =>
      (Resolved v,
       {| isLoading := false;
          error := None;
          events := events s ++
            [SetIsLoading true; SetError None] ++ pre ++
            [Eff (ConsoleLog "Analysis completed successfully:" [v]);
             SetIsLoading false] |})
  | Rejected err =>
      let e := error_or_new err (analyzeImage_errorMessage env err) in
      (Rejected (VError e),
       {| isLoading := false;
          error := Some e;
          events := events s ++
            [SetIsLoading true; SetError None] ++ pre ++
            [Eff (ConsoleError "Analysis failed:" [err]);
             SetError (Some e); SetIsLoading false] |})
  end.
Proof.
  unfold analyzeImage.
  destruct (Transport.analyzeImage api file options) as [[v | err] log]; cbn;
    repeat rewrite <- app_assoc; reflexivity.
Qed.

Ltac shape_goals Q :=
  split; [| split];
  [ rewrite ?forallb_app, ?Q; reflexivity
  | reflexivity
  | cbn; rewrite <- ?app_assoc; reflexivity ].

(** Every operation brackets what it does between [setIsLoading(true)]
    and a final [setIsLoading(false)], with no write to the flag between. *)
Lemma invoke_shape env api op (s : State) :
  exists mid : list Event,
    forallb keeps_loading mid = true /\
    isLoading (snd (invoke env api op s)) = false /\
    events (snd (invoke env api op s)) =
      events s ++ [SetIsLoading true] ++ mid ++ [SetIsLoading false].
Proof.
  assert (Q : forall log, forallb keeps_loading (map Eff log) = true)
    by (induction log; simpl; auto).
  destruct (is_analyzeImage op) eqn:E.
  - destruct op; try discriminate. simpl invoke.
    rewrite analyzeImage_run.
    destruct (Transport.analyzeImage api file options) as [[v | err] log];
      cbn -[analyzeImage_prologue analyzeImage_errorMessage].
    + exists ([SetError None]
                ++ map Eff (analyzeImage_prologue env file ++ log)
                ++ [Eff (ConsoleLog "Analysis completed successfully:" [v])]).
      shape_goals Q.
    + exists ([SetError None]
                ++ map Eff (analyzeImage_prologue env file ++ log)
                ++ [Eff (ConsoleError "Analysis failed:" [err]);
                    SetError (Some (error_or_new err
                                      (analyzeImage_errorMessage env err)))]).
      shape_goals Q.
  - rewrite (invoke_tracked env api op E), tracked_run.
    destruct (binding api op) as [[v | err] log]; cbn.
    + exists ([SetError None] ++ map Eff log). shape_goals Q.
    + exists ([SetError None] ++ map Eff log
                ++ [SetError (Some (error_or_new err "Unknown error occurred"))]).
      shape_goals Q.
Qed.

Lemma skipn_length_app {A} (l l' : list A) : skipn (length l) (l ++ l') = l'.
Proof. induction l; simpl; auto. Qed.

Lemma loading_after_quiet b (evs : list Event) :
  forallb keeps_loading evs = true -> loading_after b evs = b.
Proof.
  induction evs as [| ev evs IH]; simpl; auto.
  destruct ev; simpl; intros Q; try discriminate; auto.
Qed.

Lemma loading_flags_quiet b (evs : list Event) :
  forallb keeps_loading evs = true ->
  loading_flags b evs = repeat b (length evs).
Proof.
  induction evs as [| ev evs IH]; simpl; auto.
  destruct ev; simpl; intros Q; try discriminate; now rewrite IH.
Qed.

Lemma loading_flags_app b (xs ys : list Event) :
  loading_flags b (xs ++ ys) =
  loading_flags b xs ++ loading_flags (loading_after b xs) ys.
Proof.
  revert b; induction xs as [| ev xs IH]; intros b; simpl; auto.
  rewrite IH. destruct ev; reflexivity.
Qed.

(* ===================================================================== *)
(** ** The hook: success, failure and the loading flag                    *)
(* ===================================================================== *)

(** C3. For each of the nine operations and every input: when the
    [geminiApi] binding it awaits resolves with [v], the operation resolves
    with exactly [v], the stored error is [null] and [isLoading] is [false]
    once the call has settled. *)
Theorem success_returns_binding_value env api op (s : State) (v : Value) :
  fst (binding api op) = Resolved v ->
  fst (invoke env api op s) = Resolved v /\
  error (snd (invoke env api op s)) = None /\
  isLoading (snd (invoke env api op s)) = false.
Proof.
  intros Hb.
  destruct (is_analyzeImage op) eqn:E.
  - destruct op; try discriminate. simpl in *.
    rewrite analyzeImage_run. cbv zeta. rewrite Hb. auto.
  - rewrite (invoke_tracked env api op E), tracked_run, Hb. auto.
Qed.

Lemma success_returns_binding_value_witness :
  fst (invoke None (geminiApi None Scenario.remote_up) GetAllCsvData initial)
    = Resolved Scenario.ok_body /\
  error (snd (invoke None (geminiApi None Scenario.remote_up)
                GetAllCsvData initial)) = None /\
  isLoading (snd (invoke None (geminiApi None Scenario.remote_up)
                    GetAllCsvData initial)) = false.
Proof.
  apply (success_returns_binding_value None
           (geminiApi None Scenario.remote_up) GetAllCsvData initial
           Scenario.ok_body).
  reflexivity.
Defined.

(** C4. For each of the nine operations and every input: when the
    awaited binding rejects, the operation rejects too (it never resolves)
    and the stored error is not [null]. *)
Theorem failure_is_stored_and_rethrown env api op (s : State) (err : Value) :
  fst (binding api op) = Rejected err ->
  (exists thrown, fst (invoke env api op s) = Rejected thrown) /\
  (forall v, fst (invoke env api op s) <> Resolved v) /\
  error (snd (invoke env api op s)) <> None.
Proof.
  intros Hb.
  destruct (is_analyzeImage op) eqn:E.
  - destruct op; try discriminate. simpl in *.
    rewrite analyzeImage_run. cbv zeta. rewrite Hb. cbn [fst snd error].
    repeat split; [eexists; reflexivity | discriminate | discriminate].
  - rewrite (invoke_tracked env api op E), tracked_run, Hb.
    cbn [fst snd error].
    repeat split; [eexists; reflexivity | discriminate | discriminate].
Qed.

Lemma failure_is_stored_and_rethrown_witness :
  (exists thrown,
      fst (invoke None (geminiApi None Scenario.remote_down)
             GetAllCsvData initial) = Rejected thrown) /\
  (forall v,
      fst (invoke None (geminiApi None Scenario.remote_down)
             GetAllCsvData initial) <> Resolved v) /\
  error (snd (invoke None (geminiApi None Scenario.remote_down)
                GetAllCsvData initial)) <> None.
Proof.
  apply (failure_is_stored_and_rethrown None
           (geminiApi None Scenario.remote_down) GetAllCsvData initial
           (VError Scenario.network_error)).
  reflexivity.
Defined.

Lemma quiet_map_Eff (log : list Effect) :
  forallb keeps_loading (map Eff log) = true.
Proof. induction log; simpl; auto. Qed.

Lemma loading_after_app b (xs ys : list Event) :
  loading_after b (xs ++ ys) = loading_after (loading_after b xs) ys.
Proof.
  revert b; induction xs as [| ev xs IH]; intros b; simpl; auto.
  destruct ev; apply IH.
Qed.

Lemma statements_tracked env api op :
  is_analyzeImage op = false ->
  statements env api op =
  [setIsLoading true; setError None; await (binding api op)]
    ++ match fst (binding api op) with
       | Resolved _ => [setIsLoading false]
       | Rejected err =>
           [setError (Some (error_or_new err "Unknown error occurred"));
            setIsLoading false]
       end.
Proof. destruct op; simpl; intros E; try discriminate; reflexivity. Qed.

Ltac flag_follows :=
  unfold flag_follows_events; cbn [isLoading events];
  rewrite <- ?app_assoc, skipn_length_app;
  cbn [app loading_after];
  rewrite ?loading_after_app;
  rewrite ?(loading_after_quiet _ (map Eff _)) by apply quiet_map_Eff;
  reflexivity.

(** The states a call goes through, statement by statement. *)
Lemma states_of_call env api op (s : State) :
  exists between,
    states_through (statements env api op) s =
      after (setIsLoading true) s :: between ++ [snd (invoke env api op s)] /\
    Forall (fun st => isLoading st = true) between /\
    Forall (flag_follows_events s) (states_through (statements env api op) s).
Proof.
  destruct (is_analyzeImage op) eqn:E.
  - destruct op; try discriminate.
    cbn [invoke statements binding]. rewrite analyzeImage_run. cbv zeta.
    destruct (Transport.analyzeImage api file options) as [[v | err] log];
      cbn [fst snd app states_through].
    + eexists [_; _; _; _; _; _; _]. cbn [app].
      split; [| split].
      * unfold after; cbn. rewrite <- !app_assoc. reflexivity.
      * repeat constructor.
      * repeat (constructor; [unfold after; cbn; flag_follows |]).
        constructor.
    + eexists [_; _; _; _; _; _; _; _]. cbn [app].
      split; [| split].
      * unfold after; cbn. rewrite <- !app_assoc. reflexivity.
      * repeat constructor.
      * repeat (constructor; [unfold after; cbn; flag_follows |]).
        constructor.
  - rewrite (statements_tracked env api op E),
      (invoke_tracked env api op E), tracked_run.
    destruct (binding api op) as [[v | err] log];
      cbn [fst snd app states_through].
    + eexists [_; _]. cbn [app].
      split; [| split].
      * unfold after; cbn. rewrite <- !app_assoc. reflexivity.
      * repeat constructor.
      * repeat (constructor; [unfold after; cbn; flag_follows |]).
        constructor.
    + eexists [_; _; _]. cbn [app].
      split; [| split].
      * unfold after; cbn. rewrite <- !app_assoc. reflexivity.
      * repeat constructor.
      * repeat (constructor; [unfold after; cbn; flag_follows |]).
        constructor.
Qed.

(** C5. For each of the nine operations, every input and every prior
    state.  Statement by statement: the first statement of a call is
    [setIsLoading(true)]; in the state after it and after every later
    statement of the call but the last, [isLoading] is [true]; the last
    statement leaves the state the call settles in, where [isLoading] is
    [false], whether the call resolved or rejected.  Event by event: the
    first event is [SetIsLoading true], the flag is [true] after every
    event but the last and [false] after the last; and in every state the
    call goes through, [isLoading] is the flag the events so far give. *)
Theorem loading_true_until_settled env api op (s : State) :
  let evs := emitted (invoke env api op) s in
  let states := states_through (statements env api op) s in
  events (snd (invoke env api op s)) = events s ++ evs /\
  hd_error evs = Some (SetIsLoading true) /\
  (exists n,
      loading_flags (isLoading s) evs = repeat true (S n) ++ [false]) /\
  isLoading (snd (invoke env api op s)) = false /\
  isLoading (after (setIsLoading true) s) = true /\
  (exists between,
      states =
        after (setIsLoading true) s
          :: between ++ [snd (invoke env api op s)] /\
      Forall (fun st => isLoading st = true) between) /\
  Forall (flag_follows_events s) states.
Proof.
  destruct (invoke_shape env api op s) as (mid & Q & L & Ev).
  destruct (states_of_call env api op s) as (between & St & Tr & Fl).
  unfold emitted. rewrite Ev, skipn_length_app.
  repeat split; auto.
  - exists (length mid).
    change ([SetIsLoading true] ++ mid ++ [SetIsLoading false])
      with (SetIsLoading true :: (mid ++ [SetIsLoading false])).
    cbn [loading_flags loading_after].
    rewrite loading_flags_app, loading_flags_quiet, loading_after_quiet
      by auto.
    reflexivity.
  - exists between. split; assumption.
Qed.

(** C10. For each operation other than [analyzeImage]: when the awaited
    binding rejects with [err], the call rejects with [err] itself, Error
    or not; the stored error is [err] when it is an Error and otherwise a
    new Error with the message "Unknown error occurred", which then is not
    the value that was rethrown. *)
Theorem rethrown_original_stored_wrapped env api op (s : State)
    (err : Value) :
  is_analyzeImage op = false ->
  fst (binding api op) = Rejected err ->
  fst (invoke env api op s) = Rejected err /\
  error (snd (invoke env api op s)) =
    Some (error_or_new err "Unknown error occurred") /\
  (instanceof_Error err = false ->
   error (snd (invoke env api op s)) =
     Some (new_Error "Unknown error occurred") /\
   VError (new_Error "Unknown error occurred") <> err).
Proof.
  intros E Hb.
  rewrite (invoke_tracked env api op E), tracked_run, Hb.
  cbn [fst snd error].
  repeat split; auto.
  - destruct err; simpl in *; try discriminate; reflexivity.
  - destruct err; simpl in *; discriminate.
Qed.

Lemma rethrown_original_stored_wrapped_witness :
  fst (invoke None Scenario.api_throwing_string
         (ExtractDataFromImage Scenario.photo) initial)
    = Rejected (VStr "boom") /\
  error (snd (invoke None Scenario.api_throwing_string
                (ExtractDataFromImage Scenario.photo) initial))
    = Some (new_Error "Unknown error occurred").
Proof.
  destruct (rethrown_original_stored_wrapped None
              Scenario.api_throwing_string
              (ExtractDataFromImage Scenario.photo) initial (VStr "boom")
              eq_refl eq_refl) as (Hthrow & _ & Hnot).
  split; [exact Hthrow | exact (proj1 (Hnot eq_refl))].
Defined.

(* ===================================================================== *)
(** ** The transport client                                               *)
(* ===================================================================== *)

Ltac run_client :=
  unfold Transport.bind, Transport.try_catch, Transport.ret, Transport.throw,
    Transport.tell, Transport.console_log, Transport.console_error,
    Transport.toast_error;
  cbn.

(** What one dispatch through [apiClient] amounts to: it settles as the
    remote does and sends exactly that request. *)
Lemma apiClient_request_settles env remote (r : Request) :
  fst (apiClient_request env remote r) =
    match remote r with
    | inl response => Resolved response
    | inr e => Rejected (VError e)
    end /\
  requests (snd (apiClient_request env remote r)) = [r].
Proof.
  unfold apiClient_request, request_fulfilled, response_rejected.
  run_client.
  destruct (remote r) as [resp | e]; cbn; auto.
  match goal with
  | |- context [if ?c then _ else _] => destruct c
  end; cbn; auto.
Qed.

(** C6. For every endpoint path and every argument, [fetchData] and
    [postData] resolve with the body of the response as it came, and reject
    with the very error the client rejected with. *)
Theorem fetch_and_post_pass_through env remote (endpoint : string)
    (params_ data_ : Value) :
  fst (fetchData env remote endpoint params_) =
    settle remote (fetch_request endpoint params_) /\
  fst (postData env remote endpoint data_) =
    settle remote (post_request endpoint data_).
Proof.
  unfold fetchData, postData, apiClient_get, apiClient_post, settle,
    fetch_request, post_request, or_empty.
  split.
  - destruct (truthy params_); cbn [headers timeout empty_config].
    + destruct (apiClient_request_settles env remote
                  {| method := GET; url := endpoint; data := VUndefined;
                     cfg := {| params := params_; headers := [];
                               timeout := None |} |}) as [F _].
      destruct (apiClient_request env remote _) as [[resp | v] log];
        cbn in F; destruct (remote _); inversion F; subst; reflexivity.
    + destruct (apiClient_request_settles env remote
                  {| method := GET; url := endpoint; data := VUndefined;
                     cfg := empty_config |}) as [F _].
      destruct (apiClient_request env remote _) as [[resp | v] log];
        cbn in F; destruct (remote _); inversion F; subst; reflexivity.
  - destruct (apiClient_request_settles env remote
                {| method := POST; url := endpoint; data := data_;
                   cfg := empty_config |}) as [F _].
    destruct (apiClient_request env remote _) as [[resp | v] log];
      cbn in F; destruct (remote _); inversion F; subst; reflexivity.
Qed.

Lemma requests_app (xs ys : list Effect) :
  requests (xs ++ ys) = requests xs ++ requests ys.
Proof.
  induction xs as [| e xs IH]; simpl; auto.
  destruct e; simpl; now rewrite ?IH.
Qed.

(** [uploadFile], request by request. *)
Lemma uploadFile_run env remote (endpoint : string) (file : File)
    (additionalData : option Object) :
  let post := upload_request endpoint file additionalData in
  fst (uploadFile env remote endpoint file additionalData) =
    match remote health_probe with
    | inr _ => Rejected (VError not_reachable)
    | inl _ =>
        match remote post with
        | inl response => Resolved (resp_data response)
        | inr e =>
            if is_ERR_NETWORK e
            then Rejected (VError (new_Error
                   ("Network connection failed. Please check if the API server is running at "
                      ++ config.GEMINI_API_URL env)%string))
            else Rejected (VError e)
        end
    end /\
  requests (snd (uploadFile env remote endpoint file additionalData)) =
    match remote health_probe with
    | inr _ => [health_probe]
    | inl _ => [health_probe; post]
    end.
Proof.
  intros post.
  destruct (apiClient_request_settles env remote health_probe) as [F1 R1].
  destruct (apiClient_request_settles env remote post) as [F2 R2].
  unfold uploadFile, apiClient_get, apiClient_post, or_empty.
  change {| method := GET; url := "/health"; data := VUndefined;
            cfg := empty_config |} with health_probe.
  change {| method := POST; url := endpoint; data := VFormData _;
            cfg := _ |} with post.
  destruct (apiClient_request env remote health_probe) as [[r1 | v1] l1];
    destruct (apiClient_request env remote post) as [[r2 | v2] l2];
    cbn [fst snd] in F1, F2, R1, R2;
    destruct (remote health_probe) as [h | eh]; try discriminate;
    destruct (remote post) as [p | ep]; try discriminate;
    inversion F1; inversion F2; subst; run_client;
    unfold is_ERR_NETWORK;
    try (destruct (code ep) as [c |]; cbn;
         [destruct (c =? "ERR_NETWORK")%string |]; cbn);
    rewrite ?requests_app, ?R1, ?R2; cbn; auto.
Qed.

(** C2. For every call to [uploadFile]: when the probe [GET /health]
    fails, whatever the failure, the call rejects with the synthesized
    "API server is not reachable" error, and the probe is the only request
    sent: the multipart POST is never issued. *)
Theorem upload_fails_fast_when_probe_fails env remote (endpoint : string)
    (file : File) (additionalData : option Object) (e : Error) :
  remote health_probe = inr e ->
  fst (uploadFile env remote endpoint file additionalData) =
    Rejected (VError not_reachable) /\
  requests (snd (uploadFile env remote endpoint file additionalData)) =
    [health_probe] /\
  existsb is_post
    (requests (snd (uploadFile env remote endpoint file additionalData))) =
    false.
Proof.
  intros Hprobe.
  destruct (uploadFile_run env remote endpoint file additionalData)
    as [F R].
  rewrite Hprobe in F, R. rewrite F, R. auto.
Qed.

Lemma upload_fails_fast_when_probe_fails_witness :
  fst (uploadFile None Scenario.remote_down "/upload-flash" Scenario.photo
         None) = Rejected (VError not_reachable) /\
  requests (snd (uploadFile None Scenario.remote_down "/upload-flash"
                   Scenario.photo None)) = [health_probe] /\
  existsb is_post
    (requests (snd (uploadFile None Scenario.remote_down "/upload-flash"
                      Scenario.photo None))) = false.
Proof.
  apply (upload_fails_fast_when_probe_fails None Scenario.remote_down
           "/upload-flash" Scenario.photo None Scenario.network_error).
  reflexivity.
Defined.

(** C7, as stated, fails: with the server up, the multipart POST of
    [uploadFile] runs under 120000 ms, which is the client's default and
    not longer than it. *)
Lemma upload_timeout_not_extended :
  ~ upload_timeout_extended None Scenario.remote_up "/upload-flash"
      Scenario.photo None.
Proof.
  intros Hext.
  specialize (Hext (upload_request "/upload-flash" Scenario.photo None)).
  assert (Hgt : effective_timeout
                  (upload_request "/upload-flash" Scenario.photo None)
                > apiClient_timeout).
  { apply Hext; [right; left; reflexivity | reflexivity]. }
  vm_compute in Hgt. discriminate.
Qed.

(** C7, amended. When the probe succeeds, [uploadFile] sends the
    multipart POST with an explicit per-request timeout of
    [config.API_TIMEOUT]; that is 120000 ms, the same value as the default
    of the client. *)
Theorem upload_timeout_equals_default env remote (endpoint : string)
    (file : File) (additionalData : option Object) (h : Response) :
  remote health_probe = inl h ->
  let post := upload_request endpoint file additionalData in
  requests (snd (uploadFile env remote endpoint file additionalData)) =
    [health_probe; post] /\
  method post = POST /\
  timeout (cfg post) = Some config.API_TIMEOUT /\
  effective_timeout post = apiClient_timeout /\
  apiClient_timeout = 120000.
Proof.
  intros Hprobe post.
  destruct (uploadFile_run env remote endpoint file additionalData)
    as [_ R].
  rewrite Hprobe in R. repeat split; auto.
Qed.

Lemma upload_timeout_equals_default_witness :
  requests (snd (uploadFile None Scenario.remote_up "/upload-flash"
                   Scenario.photo None)) =
    [health_probe; upload_request "/upload-flash" Scenario.photo None] /\
  effective_timeout (upload_request "/upload-flash" Scenario.photo None) =
    120000.
Proof.
  destruct (upload_timeout_equals_default None Scenario.remote_up
              "/upload-flash" Scenario.photo None
              {| resp_data := Scenario.ok_body; resp_status := 200 |}
              eq_refl) as (R & _ & _ & E & D).
  split; [exact R | exact (eq_trans E D)].
Defined.

Lemma fold_left_append_files (files : list File)
    (acc : list (string * Value)) :
  fold_left (fun fd file => append fd "file" (VFile file)) files acc =
  acc ++ map (fun f => ("file", VFile f)) files.
Proof.
  revert acc; induction files as [| f files IH]; intros acc; simpl.
  - now rewrite app_nil_r.
  - rewrite IH. unfold append. now rewrite <- app_assoc.
Qed.

(** C8. [geminiApi.processFiles] sends exactly one request: a multipart
    POST to [config.ENDPOINTS.EXTRACT_DATA] whose form holds every file,
    in order, under the one field name "file".  It sends no [/health]
    probe, sets no per-request timeout (so the client's default applies),
    and settles as that one request does. *)
Theorem processFiles_single_post_no_probe env remote (files : list File) :
  let post := processFiles_request files in
  requests (snd (geminiApi_processFiles env remote files)) = [post] /\
  ~ In health_probe (requests (snd (geminiApi_processFiles env remote files))) /\
  method post = POST /\
  url post = config.ENDPOINTS.EXTRACT_DATA /\
  data post = VFormData (map (fun f => ("file", VFile f)) files) /\
  timeout (cfg post) = None /\
  fst (geminiApi_processFiles env remote files) = settle remote post.
Proof.
  intros post.
  destruct (apiClient_request_settles env remote post) as [F R].
  assert (E : geminiApi_processFiles env remote files =
              Transport.try_catch
                (Transport.bind (apiClient_request env remote post)
                   (fun response => Transport.ret (resp_data response)))
                (fun error =>
                   Transport.bind
                     (Transport.console_error
                        "Error processing multiple files:" [error])
                     (fun _ => Transport.throw error))).
  { unfold geminiApi_processFiles, apiClient_post, or_empty, post,
      processFiles_request.
    now rewrite fold_left_append_files. }
  rewrite E. unfold settle.
  destruct (apiClient_request env remote post) as [[resp | v] log];
    cbn [fst snd] in F, R; destruct (remote post); inversion F; subst;
    run_client; rewrite ?requests_app, ?R; cbn;
    repeat split; auto; intros [H | []]; discriminate H.
Qed.

(** C9. For every id, [geminiApi.getAnalysisResults] and
    [geminiApi.getCsvData] send the same single request, a GET of
    [/results/{id}] with no query parameters, and settle alike: with the
    body of the response, or with the error of the client. *)
Theorem getAnalysisResults_same_as_getCsvData env remote (id : string) :
  fst (geminiApi_getAnalysisResults env remote id) =
    fst (geminiApi_getCsvData env remote id) /\
  fst (geminiApi_getCsvData env remote id) =
    settle remote (results_request id) /\
  requests (snd (geminiApi_getAnalysisResults env remote id)) =
    [results_request id] /\
  requests (snd (geminiApi_getCsvData env remote id)) =
    [results_request id] /\
  params (cfg (results_request id)) = VUndefined.
Proof.
  destruct (apiClient_request_settles env remote (results_request id))
    as [F R].
  unfold geminiApi_getAnalysisResults, geminiApi_getCsvData, fetchData,
    apiClient_get, or_empty, settle.
  cbn [truthy].
  change {| method := GET; url := _; data := VUndefined; cfg := _ |}
    with (results_request id).
  destruct (apiClient_request env remote (results_request id))
    as [[resp | v] log];
    cbn [fst snd] in F, R; destruct (remote (results_request id));
    inversion F; subst; run_client; rewrite ?requests_app, ?R; cbn; auto.
Qed.

(* ===================================================================== *)
(** ** [analyzeImage]: the message that is computed and the error that is
       thrown                                                             *)
(* ===================================================================== *)

(** When the binding rejects with an Error, [analyzeImage] stores and
    rethrows that Error as it is: [errorMessage] only ever reaches
    [new Error(...)], which is built for values that are not Errors. *)
Lemma analyzeImage_rethrows_Error env api file options (s : State)
    (e : Error) :
  fst (Transport.analyzeImage api file options) = Rejected (VError e) ->
  fst (analyzeImage env api file options s) = Rejected (VError e) /\
  error (snd (analyzeImage env api file options s)) = Some e.
Proof.
  intros Hb. rewrite analyzeImage_run. cbv zeta. rewrite Hb. auto.
Qed.

(** C1, on the code. The health probe is answered and the upload runs
    into the client timeout, so the binding rejects with the axios Error
    "timeout of 120000ms exceeded".  Its message contains "timeout" and the
    catch block does compute the "took too long" text, yet the error that
    [analyzeImage] throws and stores is the axios Error with its own
    message. *)
Theorem analyzeImage_timeout_message_kept :
  let api := geminiApi None Scenario.remote_slow in
  let run := invoke None api (AnalyzeImage Scenario.photo None) initial in
  fst (binding api (AnalyzeImage Scenario.photo None)) =
    Rejected (VError Scenario.timeout_error) /\
  includes (message Scenario.timeout_error) "timeout" = true /\
  analyzeImage_errorMessage None (VError Scenario.timeout_error) =
    "The request took too long to process. Please try with a smaller file or try again later." /\
  fst run = Rejected (VError Scenario.timeout_error) /\
  error (snd run) = Some Scenario.timeout_error /\
  message Scenario.timeout_error = "timeout of 120000ms exceeded".
Proof.
  vm_compute. repeat split.
Qed.

(* ===================================================================== *)
(** ** The client, effect by effect                                       *)
(* ===================================================================== *)

(** One dispatch through [apiClient]: the line of the request
    interceptor, the request, and on failure the two effects of the
    response interceptor. *)
Lemma apiClient_request_run env remote (r : Request) :
  apiClient_request env remote r =
  match remote r with
  | inl response => (Resolved response, [request_line env r; Http r])
  | inr e =>
      (Rejected (VError e),
       [request_line env r; Http r;
        ConsoleError "API Error Details:" [VError e];
        ToastError (toast_text e)])
  end.
Proof.
  unfold apiClient_request, request_fulfilled, response_rejected,
    toast_text, is_ERR_NETWORK, request_line.
  destruct (remote r) as [resp | e] eqn:E; run_client; rewrite E;
    [reflexivity |].
  unfold nonempty, or_string.
  destruct (code e) as [c |]; cbn;
    [destruct (c =? "ERR_NETWORK")%string |]; cbn;
    destruct (response_data_message e) as [m |];
    try destruct (m =? "")%string; try destruct (message e =? "")%string;
    reflexivity.
Qed.

(** A binding that does not go through [uploadFile], effect by effect. *)
Lemma direct_binding_run env remote op (r : Request) :
  direct_request op = Some r ->
  binding (geminiApi env remote) op =
  match remote r with
  | inl response =>
      (Resolved (resp_data response), [request_line env r; Http r])
  | inr e =>
      (Rejected (VError e),
       [request_line env r; Http r;
        ConsoleError "API Error Details:" [VError e];
        ToastError (toast_text e);
        ConsoleError (failure_line op) [VError e]])
  end.
Proof.
  destruct op; simpl; intros Hr; inversion Hr; subst r; clear Hr;
    unfold geminiApi_getAnalysisResults, geminiApi_processFiles,
      geminiApi_createDatabase, geminiApi_insertDataIntoPostgres,
      geminiApi_getCsvData, geminiApi_updateCsvData,
      geminiApi_getAllCsvData, fetchData, apiClient_get, apiClient_post,
      or_empty;
    rewrite ?fold_left_append_files; cbn [truthy app];
    match goal with
    | |- context [apiClient_request env remote ?q] =>
        rewrite (apiClient_request_run env remote q);
        match goal with
        | |- _ = match remote ?q' with _ => _ end =>
            change q with q'; destruct (remote q')
        end
    end; reflexivity.
Qed.

(** [uploadFile], effect by effect. *)
Lemma uploadFile_log env remote (endpoint : string) (file : File)
    (additionalData : option Object) :
  let post := upload_request endpoint file additionalData in
  let start :=
    ConsoleLog "Uploading file:"
      [VStr (file_name file); VStr "to endpoint:"; VStr endpoint] in
  let failed v :=
    ConsoleError ("Error uploading file to " ++ endpoint ++ ":")%string [v] in
  uploadFile env remote endpoint file additionalData =
  match remote health_probe with
  | inr eh =>
      (Rejected (VError not_reachable),
       [start; request_line env health_probe; Http health_probe;
        ConsoleError "API Error Details:" [VError eh];
        ToastError (toast_text eh);
        ConsoleError "API health check failed:" [VError eh];
        failed (VError not_reachable)])
  | inl _ =>
      match remote post with
      | inl response =>
          (Resolved (resp_data response),
           [start; request_line env health_probe; Http health_probe;
            request_line env post; Http post;
            ConsoleLog "Upload response:" [resp_data response]])
      | inr e =>
          (Rejected
             (VError (if is_ERR_NETWORK e
                      then new_Error (network_failed_message env)
                      else e)),
           [start; request_line env health_probe; Http health_probe;
            request_line env post; Http post;
            ConsoleError "API Error Details:" [VError e];
            ToastError (toast_text e);
            failed (VError e)])
      end
  end.
Proof.
  intros post start failed.
  unfold uploadFile, apiClient_get, apiClient_post, or_empty.
  change {| method := GET; url := "/health"; data := VUndefined;
            cfg := empty_config |} with health_probe.
  change {| method := POST; url := endpoint; data := VFormData _;
            cfg := _ |} with post.
  rewrite !apiClient_request_run.
  destruct (remote health_probe) as [h | eh]; [| reflexivity].
  destruct (remote post) as [p | e]; [reflexivity |].
  unfold is_ERR_NETWORK.
  destruct (code e) as [c |] eqn:C; run_client; rewrite C; cbn;
    [destruct (c =? "ERR_NETWORK")%string |]; reflexivity.
Qed.

(* ===================================================================== *)
(** ** The hook, event by event                                           *)
(* ===================================================================== *)

(** The message computed in the catch block of [analyzeImage] only
    matters for Errors, and for an Error it is not used. *)
Lemma error_or_new_stored env (err : Value) :
  error_or_new err (analyzeImage_errorMessage env err) = stored err /\
  error_or_new err "Unknown error occurred" = stored err.
Proof. destruct err; split; reflexivity. Qed.

(** Any operation of the hook, event by event. *)
Lemma invoke_run env api op (s : State) :
  invoke env api op s =
  let b := binding api op in
  let before :=
    [SetIsLoading true; SetError None] ++ map Eff (prologue env op ++ snd b) in
  match fst b with
  | Resolved v =>
      (Resolved v,
       {| isLoading := false; error := None;
          events := events s ++ before ++ on_resolved op v |})
  | Rejected err =>
      (Rejected (thrown op err),
       {| isLoading := false; error := Some (stored err);
          events := events s ++ before ++ on_rejected op err |})
  end.
Proof.
  destruct (is_analyzeImage op) eqn:E.
  - destruct op; try discriminate. cbn [invoke binding prologue].
    rewrite analyzeImage_run. cbv zeta.
    destruct (fst (Transport.analyzeImage api file options)) as [v | err];
      cbn [on_resolved on_rejected thrown];
      rewrite ?(proj1 (error_or_new_stored env err));
      rewrite <- ?app_assoc; reflexivity.
  - rewrite (invoke_tracked env api op E), tracked_run. cbv zeta.
    assert (P : prologue env op = []) by (destruct op; try discriminate; reflexivity).
    rewrite P. cbn [app].
    destruct (fst (binding api op)) as [v | err].
    + destruct op; try discriminate; reflexivity.
    + rewrite (proj2 (error_or_new_stored env err)).
      destruct op; try discriminate; reflexivity.
Qed.

Lemma emitted_invoke env api op (s : State) :
  emitted (invoke env api op) s =
  [SetIsLoading true; SetError None]
    ++ map Eff (prologue env op ++ snd (binding api op))
    ++ match fst (binding api op) with
       | Resolved v => on_resolved op v
       | Rejected err => on_rejected op err
       end.
Proof.
  unfold emitted. rewrite invoke_run. cbv zeta.
  destruct (fst (binding api op)); cbn [snd events];
    rewrite skipn_length_app, <- app_assoc; reflexivity.
Qed.

Lemma effects_of_app (xs ys : list Event) :
  effects_of (xs ++ ys) = effects_of xs ++ effects_of ys.
Proof.
  induction xs as [| ev xs IH]; simpl; auto.
  destruct ev; simpl; now rewrite ?IH.
Qed.

Lemma effects_of_map_Eff (log : list Effect) : effects_of (map Eff log) = log.
Proof. induction log; simpl; congruence. Qed.

Lemma startsWith_app (p b : string) : startsWith p (p ++ b) = true.
Proof.
  induction p as [| c p IH]; simpl; auto.
  now rewrite Ascii.eqb_refl, IH.
Qed.

Lemma startsWith_includes (s p : string) :
  startsWith p s = true -> includes s p = true.
Proof. destruct s; simpl; intros ->; reflexivity. Qed.

Lemma includes_app (a p b : string) : includes (a ++ p ++ b)%string p = true.
Proof.
  induction a as [| c a IH]; simpl.
  - apply startsWith_includes, startsWith_app.
  - rewrite IH. apply orb_true_r.
Qed.

Lemma append_empty (s : string) : (s ++ "")%string = s.
Proof. induction s; simpl; congruence. Qed.

(* ===================================================================== *)
(** ** Further properties of the transport client                         *)
(* ===================================================================== *)

(** X1. When the probe is answered, [uploadFile] settles by its multipart
    POST alone: it resolves with the body of the POST response (not the
    probe's), rejects with a new Error naming the base address when the
    POST failed with code ['ERR_NETWORK'], and rejects with the error of
    the POST itself otherwise. *)
Theorem upload_settles_as_post env remote (endpoint : string) (file : File)
    (additionalData : option Object) (h : Response) :
  remote health_probe = inl h ->
  fst (uploadFile env remote endpoint file additionalData) =
    match remote (upload_request endpoint file additionalData) with
    | inl response => Resolved (resp_data response)
    | inr e =>
        Rejected (VError (if is_ERR_NETWORK e
                          then new_Error (network_failed_message env)
                          else e))
    end.
Proof.
  intros Hprobe. rewrite uploadFile_log. cbv zeta. rewrite Hprobe.
  destruct (remote (upload_request endpoint file additionalData));
    reflexivity.
Qed.

Lemma upload_settles_as_post_witness :
  fst (uploadFile None remote_post_unreachable "/upload-flash"
         Scenario.photo None) =
    Rejected (VError (new_Error (network_failed_message None))).
Proof.
  exact (upload_settles_as_post None remote_post_unreachable "/upload-flash"
           Scenario.photo None
           {| resp_data := Scenario.ok_body; resp_status := 200 |} eq_refl).
Defined.


Lemma fold_left_append_keys (obj : Object) (ks : list string)
    (acc : list (string * Value)) :
  fold_left (fun fd key => append fd key (get obj key)) ks acc =
  acc ++ map (fun k => (k, form_value (get obj k))) ks.
Proof.
  revert acc; induction ks as [| k ks IH]; intros acc; simpl.
  - now rewrite app_nil_r.
  - rewrite IH. unfold append. now rewrite <- app_assoc.
Qed.



(** X4. For each of the nine [geminiApi] bindings and every remote: a
    call that rejects has shown exactly one error toast, and a call that
    resolves has shown none. *)
Theorem one_toast_per_failed_call env remote op :
  length (toasts (snd (binding (geminiApi env remote) op))) =
  match fst (binding (geminiApi env remote) op) with
  | Resolved _ => 0%nat
  | Rejected _ => 1%nat
  end.
Proof.
  destruct (direct_request op) as [r |] eqn:D.
  - rewrite (direct_binding_run env remote op r D).
    destruct (remote r); reflexivity.
  - destruct op; try discriminate; cbn [binding geminiApi analyzeImage
      extractDataFromImage Transport.analyzeImage
      Transport.extractDataFromImage];
      unfold geminiApi_analyzeImage, geminiApi_extractDataFromImage;
      rewrite uploadFile_log; cbv zeta;
      destruct (remote health_probe); try reflexivity;
      destruct (remote (upload_request _ _ _)); reflexivity.
Qed.

(** X5. The toast of a failed [fetchData] or [postData]: the fixed
    "Network connection failed" text when the error has code
    ['ERR_NETWORK']; otherwise "API Error: " followed by the message in the
    response body when there is a non-empty one, else by the message of
    the error when it is non-empty, else by "An error occurred".  A
    successful call shows no toast. *)
Theorem failed_request_toast_text env remote (endpoint : string)
    (params_ data_ : Value) :
  toasts (snd (fetchData env remote endpoint params_)) =
    match remote (fetch_request endpoint params_) with
    | inl _ => []
    | inr e => [toast_text e]
    end /\
  toasts (snd (postData env remote endpoint data_)) =
    match remote (post_request endpoint data_) with
    | inl _ => []
    | inr e => [toast_text e]
    end.
Proof.
  unfold fetchData, postData, apiClient_get, apiClient_post, or_empty,
    fetch_request, post_request.
  split.
  - destruct (truthy params_); cbn [headers timeout empty_config];
      rewrite apiClient_request_run;
      match goal with
      | |- _ = match remote ?q with _ => _ end => destruct (remote q)
      end; reflexivity.
  - rewrite apiClient_request_run.
    match goal with
    | |- _ = match remote ?q with _ => _ end => destruct (remote q)
    end; reflexivity.
Qed.

(** X6. Each binding that does not upload sends exactly one request,
    the one of the endpoint table (GET [/results/{id}], POST
    [/upload-flash], POST [/create-database] with [{}], POST
    [/insert-data] with [{data, tableName}], POST [/update/{id}] with
    [{data}], GET [/results]), never the [/health] probe, and settles as
    that request does. *)
Theorem direct_bindings_follow_endpoint_table env remote op (r : Request) :
  direct_request op = Some r ->
  requests (snd (binding (geminiApi env remote) op)) = [r] /\
  ~ In health_probe (requests (snd (binding (geminiApi env remote) op))) /\
  fst (binding (geminiApi env remote) op) = settle remote r.
Proof.
  intros D. rewrite (direct_binding_run env remote op r D). unfold settle.
  assert (N : r <> health_probe).
  { destruct op; simpl in D; inversion D; subst;
      unfold results_request, processFiles_request, post_request,
        health_probe; simpl; congruence. }
  destruct (remote r); cbn; repeat split; auto;
    intros [Heq | []]; auto.
Qed.

Lemma direct_bindings_follow_endpoint_table_witness :
  requests (snd (binding (geminiApi None Scenario.remote_up)
                   (UpdateCsvData "7" (VStr "x")))) =
    [post_request "/update/7" (VObj [("data", VStr "x")])] /\
  fst (binding (geminiApi None Scenario.remote_up)
         (UpdateCsvData "7" (VStr "x"))) = Resolved Scenario.ok_body.
Proof.
  destruct (direct_bindings_follow_endpoint_table None Scenario.remote_up
              (UpdateCsvData "7" (VStr "x"))
              (post_request "/update/7" (VObj [("data", VStr "x")]))
              eq_refl) as (R & _ & F).
  split; [exact R | exact F].
Defined.

(** X11. [fetchData] drops a falsy [params] argument ([undefined],
    [null], [false], [0], the empty string): the call is the same as one
    without params, and the request carries no query parameters. *)
Theorem fetchData_drops_falsy_params env remote (endpoint : string)
    (params_ : Value) :
  truthy params_ = false ->
  fetchData env remote endpoint params_ =
    fetchData env remote endpoint VUndefined /\
  requests (snd (fetchData env remote endpoint params_)) =
    [{| method := GET; url := endpoint; data := VUndefined;
        cfg := empty_config |}].
Proof.
  intros Hfalsy.
  assert (E : fetchData env remote endpoint params_ =
              fetchData env remote endpoint VUndefined)
    by (unfold fetchData; rewrite Hfalsy; reflexivity).
  split; [exact E |].
  rewrite E. unfold fetchData, apiClient_get, or_empty. cbn [truthy].
  rewrite apiClient_request_run.
  match goal with
  | |- context [remote ?q] => destruct (remote q)
  end; reflexivity.
Qed.

Lemma fetchData_drops_falsy_params_witness :
  fetchData None Scenario.remote_up "/results" (VNum 0) =
    fetchData None Scenario.remote_up "/results" VUndefined.
Proof.
  exact (proj1 (fetchData_drops_falsy_params None Scenario.remote_up
                  "/results" (VNum 0) eq_refl)).
Defined.

(** X12. Whatever the environment holds, the base address is never the
    empty string: an unset or empty [VITE_API_BASE_URL] gives the default
    address, and any other value is used as it is. *)
Theorem base_url_never_empty (env : option string) :
  config.GEMINI_API_URL env <> "" /\
  (config.GEMINI_API_URL env = "https://govigyan-gemini.onrender.com" \/
   env = Some (config.GEMINI_API_URL env)).
Proof.
  unfold config.GEMINI_API_URL, or_string.
  destruct env as [s |]; [| split; [discriminate | now left]].
  destruct (String.eqb_spec s "") as [-> | N];
    split; auto; discriminate.
Qed.

(* ===================================================================== *)
(** ** Further properties of the hook                                     *)
(* ===================================================================== *)

(** X7. For each of the nine operations, any [geminiApi] and any prior
    state: the requests sent during a call of the hook are exactly those
    of the one binding it awaits, in the same order.  The hook sends
    nothing itself and never calls the binding a second time. *)
Theorem hook_sends_only_binding_requests env api op (s : State) :
  requests (effects_of (emitted (invoke env api op) s)) =
  requests (snd (binding api op)).
Proof.
  rewrite emitted_invoke, !effects_of_app, effects_of_map_Eff, !requests_app.
  assert (P : requests (prologue env op) = []) by (destruct op; reflexivity).
  rewrite P. cbn [app effects_of requests].
  destruct (fst (binding api op)); destruct op; cbn;
    now rewrite app_nil_r.
Qed.

(** X8. In [analyzeImage], what is thrown is what is stored: when the
    binding rejects with [err], the call rejects with an Error object and
    the stored error is that same Error, namely [err] itself when it is an
    Error, and a new Error "Unknown error occurred" when it is not (the
    eight other operations rethrow such a value as it is). *)
Theorem analyzeImage_throws_what_it_stores env api file options (s : State)
    (err : Value) :
  fst (Transport.analyzeImage api file options) = Rejected err ->
  fst (analyzeImage env api file options s) = Rejected (VError (stored err)) /\
  error (snd (analyzeImage env api file options s)) = Some (stored err) /\
  (instanceof_Error err = true -> VError (stored err) = err) /\
  (instanceof_Error err = false ->
   stored err = new_Error "Unknown error occurred").
Proof.
  intros Hb.
  change (analyzeImage env api file options s)
    with (invoke env api (AnalyzeImage file options) s).
  rewrite invoke_run. cbv zeta. cbn [binding]. rewrite Hb.
  repeat split; destruct err; simpl; intros; try discriminate; reflexivity.
Qed.

Lemma analyzeImage_throws_what_it_stores_witness :
  fst (analyzeImage None Scenario.api_throwing_string Scenario.photo None
         initial) =
    Rejected (VError (new_Error "Unknown error occurred")) /\
  error (snd (analyzeImage None Scenario.api_throwing_string Scenario.photo
                None initial)) =
    Some (new_Error "Unknown error occurred").
Proof.
  destruct (analyzeImage_throws_what_it_stores None
              Scenario.api_throwing_string Scenario.photo None initial
              (VStr "boom") eq_refl) as (F & E & _).
  split; [exact F | exact E].
Defined.

(** X9. What a call returns or throws, the events it adds, and the
    loading flag and error it leaves do not depend on the state the hook
    was in when it was called: a stale error or a loading flag left set by
    an earlier call changes nothing. *)
Theorem invoke_independent_of_prior_state env api op (s s' : State) :
  fst (invoke env api op s) = fst (invoke env api op s') /\
  emitted (invoke env api op) s = emitted (invoke env api op) s' /\
  isLoading (snd (invoke env api op s)) =
    isLoading (snd (invoke env api op s')) /\
  error (snd (invoke env api op s)) = error (snd (invoke env api op s')).
Proof.
  rewrite !emitted_invoke, !invoke_run. cbv zeta.
  destruct (fst (binding api op)); repeat split; reflexivity.
Qed.

(** X10. End to end, for [analyzeImage] over the real [geminiApi]: when
    the probe is answered and the multipart POST fails with code
    ['ERR_NETWORK'], the call rejects with, and stores, the Error built by
    [uploadFile]; its message contains "Network" and contains the
    configured base address. *)
Theorem analyzeImage_network_failure_names_base_url env remote (file : File)
    (options : option Object) (s : State) (h : Response) (e : Error) :
  remote health_probe = inl h ->
  remote (upload_request "/upload-flash" file options) = inr e ->
  is_ERR_NETWORK e = true ->
  let run :=
    invoke env (geminiApi env remote) (AnalyzeImage file options) s in
  fst run = Rejected (VError (new_Error (network_failed_message env))) /\
  error (snd run) = Some (new_Error (network_failed_message env)) /\
  includes (network_failed_message env) "Network" = true /\
  includes (network_failed_message env) (config.GEMINI_API_URL env) = true.
Proof.
  intros Hprobe Hpost Hnet run. subst run.
  rewrite invoke_run. cbv zeta.
  cbn [binding geminiApi Transport.analyzeImage].
  unfold geminiApi_analyzeImage.
  rewrite uploadFile_log. cbv zeta.
  change config.ENDPOINTS.ANALYZE_IMAGE with "/upload-flash".
  rewrite Hprobe, Hpost, Hnet. cbn [fst snd error thrown stored].
  repeat split.
  unfold network_failed_message.
  rewrite <- (append_empty (config.GEMINI_API_URL env)) at 1.
  apply includes_app.
Qed.

(** X13. End to end, for the two upload operations over the real
    [geminiApi]: when the [/health] probe fails, the call rejects with the
    "API server is not reachable" Error, stores that Error, leaves the
    loading flag [false], and the probe is the only request sent. *)
Theorem hook_upload_unreachable env remote op (s : State) (e : Error) :
  is_upload op = true ->
  remote health_probe = inr e ->
  let run := invoke env (geminiApi env remote) op s in
  fst run = Rejected (VError not_reachable) /\
  error (snd run) = Some not_reachable /\
  isLoading (snd run) = false /\
  requests (effects_of (emitted (invoke env (geminiApi env remote) op) s)) =
    [health_probe].
Proof.
  intros Hup Hprobe run. subst run.
  assert (B : binding (geminiApi env remote) op =
              uploadFile env remote "/upload-flash"
                match op with AnalyzeImage f _ | ExtractDataFromImage f => f
                            | _ => Scenario.photo end
                match op with AnalyzeImage _ o => o | _ => None end)
    by (destruct op; try discriminate; reflexivity).
  pose proof (uploadFile_run env remote "/upload-flash"
                match op with AnalyzeImage f _ | ExtractDataFromImage f => f
                            | _ => Scenario.photo end
                match op with AnalyzeImage _ o => o | _ => None end)
    as [F R].
  rewrite <- B, Hprobe in F, R.
  rewrite emitted_invoke, !effects_of_app, effects_of_map_Eff, !requests_app.
  rewrite invoke_run. cbv zeta. rewrite F, R.
  destruct op; try discriminate; repeat split.
Qed.

Lemma hook_upload_unreachable_witness :
  fst (invoke None (geminiApi None Scenario.remote_down)
         (ExtractDataFromImage Scenario.photo) initial) =
    Rejected (VError not_reachable) /\
  error (snd (invoke None (geminiApi None Scenario.remote_down)
                (ExtractDataFromImage Scenario.photo) initial)) =
    Some not_reachable.
Proof.
  destruct (hook_upload_unreachable None Scenario.remote_down
              (ExtractDataFromImage Scenario.photo) initial
              Scenario.network_error eq_refl eq_refl) as (F & E & _).
  split; [exact F | exact E].
Defined.

Lemma analyzeImage_network_failure_names_base_url_witness :
  fst (invoke None (geminiApi None remote_post_unreachable)
         (AnalyzeImage Scenario.photo None) initial) =
    Rejected (VError (new_Error (network_failed_message None))) /\
  includes (network_failed_message None)
    "https://govigyan-gemini.onrender.com" = true.
Proof.
  destruct (analyzeImage_network_failure_names_base_url None
              remote_post_unreachable Scenario.photo None initial
              {| resp_data := Scenario.ok_body; resp_status := 200 |}
              Scenario.network_error eq_refl eq_refl eq_refl)
    as (F & _ & _ & I).
  split; [exact F | exact I].
Defined.

(** X14. For each of the nine operations: when the binding rejects, the
    last two events of the call are the write of the error and then
    [setIsLoading(false)].  The error is in the state before the loading
    flag goes back to [false]. *)
Theorem error_stored_before_loading_cleared env api op (s : State)
    (err : Value) :
  fst (binding api op) = Rejected err ->
  exists before,
    emitted (invoke env api op) s =
      before ++ [SetError (Some (stored err)); SetIsLoading false] /\
    error (snd (invoke env api op s)) = Some (stored err).
Proof.
  intros Hb. rewrite emitted_invoke, invoke_run. cbv zeta. rewrite Hb.
  destruct (is_analyzeImage op) eqn:E.
  - destruct op; try discriminate.
    exists ([SetIsLoading true; SetError None]
              ++ map Eff (prologue env (AnalyzeImage file options)
                            ++ snd (binding api (AnalyzeImage file options)))
              ++ [Eff (ConsoleError "Analysis failed:" [err])]).
    cbn [on_rejected snd error].
    split; [| reflexivity].
    rewrite <- !app_assoc. reflexivity.
  - exists ([SetIsLoading true; SetError None]
              ++ map Eff (prologue env op ++ snd (binding api op))).
    split; [| reflexivity].
    destruct op; try discriminate; cbn [on_rejected];
      rewrite <- !app_assoc; reflexivity.
Qed.

Lemma error_stored_before_loading_cleared_witness :
  exists before,
    emitted (invoke None Scenario.api_throwing_string GetAllCsvData) initial =
      before ++ [SetError (Some (new_Error "Unknown error occurred"));
                 SetIsLoading false] /\
    error (snd (invoke None Scenario.api_throwing_string GetAllCsvData
                  initial)) = Some (new_Error "Unknown error occurred").
Proof.
  exact (error_stored_before_loading_cleared None
           Scenario.api_throwing_string GetAllCsvData initial (VStr "boom")
           eq_refl).
Defined.

(** X15. End to end, for each operation that does not upload, over the
    real [geminiApi]: the call settles as the one request of the endpoint
    table does (the body of the response, or the error of the client
    itself); the stored error is [null] after a response and that very
    error after a failure; the loading flag is left [false]. *)
Theorem hook_direct_end_to_end env remote op (s : State) (r : Request) :
  direct_request op = Some r ->
  let run := invoke env (geminiApi env remote) op s in
  fst run = settle remote r /\
  error (snd run) =
    match remote r with
    | inl _ => None
    | inr e => Some e
    end /\
  isLoading (snd run) = false.
Proof.
  intros D run. subst run.
  rewrite invoke_run. cbv zeta.
  rewrite (direct_binding_run env remote op r D). unfold settle.
  destruct (remote r); cbn [fst snd error isLoading];
    destruct op; try discriminate; repeat split.
Qed.

Lemma hook_direct_end_to_end_witness :
  fst (invoke None (geminiApi None Scenario.remote_up) GetAllCsvData initial)
    = Resolved Scenario.ok_body /\
  error (snd (invoke None (geminiApi None Scenario.remote_up) GetAllCsvData
                initial)) = None.
Proof.
  destruct (hook_direct_end_to_end None Scenario.remote_up GetAllCsvData
              initial
              {| method := GET; url := "/results"; data := VUndefined;
                 cfg := empty_config |} eq_refl) as (F & E & _).
  split; [exact F | exact E].
Defined.

(* ===================================================================== *)
(** ** What the client logs and what it does not check                    *)
(* ===================================================================== *)

(** X2. For each of the nine [geminiApi] bindings and every remote:
    every request that is sent comes right after the console line of the
    request interceptor, "Making API request to:" with the base address
    followed by the path of that request. *)
Theorem every_request_is_announced env remote op :
  every_request_announced env (snd (binding (geminiApi env remote) op)).
Proof.
  destruct (direct_request op) as [r |] eqn:D.
  - rewrite (direct_binding_run env remote op r D).
    destruct (remote r); cbn; auto.
  - destruct op; try discriminate; cbn [binding geminiApi analyzeImage
      extractDataFromImage Transport.analyzeImage
      Transport.extractDataFromImage];
      unfold geminiApi_analyzeImage, geminiApi_extractDataFromImage;
      rewrite uploadFile_log; cbv zeta;
      destruct (remote health_probe); cbn; auto;
      destruct (remote (upload_request _ _ _)); cbn; auto.
Qed.

Lemma upload_form_has_file (file : File) (additionalData : option Object) :
  In ("file", VFile file) (upload_form file additionalData).
Proof.
  destruct additionalData as [obj |]; simpl; [| now left].
  rewrite fold_left_append_keys. now left.
Qed.

(** X16. [config.MAX_FILE_SIZE] (ten megabytes) is not enforced by
    [uploadFile]: for a file larger than that, once the probe is answered
    the multipart POST is sent all the same, with that file in its form. *)
Theorem upload_not_limited_by_size env remote (endpoint : string)
    (file : File) (additionalData : option Object) (h : Response) :
  file_size file > config.MAX_FILE_SIZE ->
  remote health_probe = inl h ->
  requests (snd (uploadFile env remote endpoint file additionalData)) =
    [health_probe; upload_request endpoint file additionalData] /\
  (exists form,
      data (upload_request endpoint file additionalData) = VFormData form /\
      In ("file", VFile file) form) /\
  config.MAX_FILE_SIZE = 10485760.
Proof.
  intros _ Hprobe.
  destruct (uploadFile_run env remote endpoint file additionalData)
    as [_ R].
  rewrite Hprobe in R. repeat split; auto.
  exists (upload_form file additionalData).
  split; [reflexivity | apply upload_form_has_file].
Qed.

Lemma upload_not_limited_by_size_witness :
  requests (snd (uploadFile None Scenario.remote_up "/upload-flash" big_scan
                   None)) =
    [health_probe; upload_request "/upload-flash" big_scan None].
Proof.
  refine (proj1 (upload_not_limited_by_size None Scenario.remote_up
                   "/upload-flash" big_scan None
                   {| resp_data := Scenario.ok_body; resp_status := 200 |}
                   _ eq_refl)).
  vm_compute. reflexivity.
Defined.
